(** * boost/process/child.hpp: the resource bundle and the child class

    A shallow embedding of [boost::process::detail::make_resource] and of
    the members of [boost::process::child], with the properties of the
    process-lifecycle specification stated over it. *)

From Stdlib Require Import ZArith List Bool Lia.
Import ListNotations.
Local Open Scope Z_scope.

(* ===================================================================== *)
(** ** namespace detail: the resource bundle *)
(* ===================================================================== *)

Module detail.

Section Bundle.

(** The launch arguments held by the [hana::tuple], and the concrete
    keep-alive resources they may produce. *)
Variables (Arg Res : Type).

(** What [initializer_resource(v)] returns: [boost::none] when the
    argument needs no resource, or a concrete resource object. *)
Inductive resolved : Type :=
| none : resolved
| resource (r : Res) : resolved.

(** [initializer_resource] is found by overload resolution on the
    initializer types; its overloads live with the initializers and are
    taken as given. *)
Variable initializer_resource : Arg -> resolved.

(** [hana::decltype_(v) == hana::decltype_(boost::none)]: the type of [v]
    is the type of [boost::none]. *)
Definition decltype_is_none (v : resolved) : bool :=
  match v with
  | none => true
  | resource _ => false
  end.

(** [resource_t<Args...>] derives from every [Args] and is built from one
    value per base, in order: the list of its base sub-objects. *)
Definition resource_t : Type := list resolved.

(** The [maker] lambda: [resource_t<decltype(args)...>(args...)].  Its
    parameters are declared [auto &&... args], so each [decltype(args)] is
    a reference type, and [resource_t] names each of its type arguments as
    a base class, which a reference type cannot be.  With no argument the
    lambda returns [resource_t<>()]; with any argument its instantiation is
    ill-formed and there is no program: [None]. *)
Definition maker (args : list resolved) : option resource_t :=
  match args with
  | [] => Some []
  | _ :: _ => None
  end.

(** [hana::unpack(xs, f)] calls [f] with the elements of [xs]. *)
Definition unpack {A B : Type} (xs : list A) (f : list A -> B) : B := f xs.

(** [make_resource]: [hana::transform] maps, [hana::filter] keeps the
    elements that satisfy its predicate.  [None] where the call does not
    instantiate. *)
Definition make_resource (tup : list Arg) : option resource_t :=
  let res := map initializer_resource tup in
  let filtered := filter decltype_is_none res in
  unpack filtered maker.

(** The base sub-objects of the aggregate a call builds; there are none
    where it builds nothing. *)
Definition bases (r : option resource_t) : list resolved :=
  match r with
  | Some agg => agg
  | None => []
  end.

(** The resources a bundle is specified to own: the concrete ones, in the
    order of their arguments. *)
Fixpoint concrete_resources (vs : list resolved) : list Res :=
  match vs with
  | [] => []
  | none :: vs' => concrete_resources vs'
  | resource r :: vs' => r :: concrete_resources vs'
  end.

End Bundle.

Arguments none {Res}.
Arguments resource {Res} r.
Arguments decltype_is_none {Res} v.
Arguments make_resource {Arg Res} initializer_resource tup.
Arguments concrete_resources {Res} vs.
Arguments bases {Res} r.

End detail.

(* ===================================================================== *)
(** ** The platform layer ([boost::process::detail::api]) *)
(* ===================================================================== *)

(** [child_handle::process_handle_t]. *)
Definition native_handle_t : Type := Z.

(** Modelled from the spec: [child_handle] is declared in
    [boost/process/posix/child_handle.hpp] and its Windows twin, which are
    not part of this header.  A handle is either valid (it refers to a
    process) or empty (default-constructed or moved-from). *)
Definition child_handle : Type := option native_handle_t.

(** The type-erased bundle pointer [std::unique_ptr<void, void( * )(void * )>]:
    null, or the address of one heap-allocated aggregate. *)
Definition resource_ptr : Type := option Z.

Definition handle_valid (h : child_handle) : bool :=
  match h with
  | Some _ => true
  | None => false
  end.

(** [std::chrono::duration] and [std::chrono::time_point], in ticks. *)
Definition duration : Type := Z.
Definition time_point : Type := Z.

(** Modelled from the spec: the functions [is_running], [terminate], [wait],
    [wait_for] and [wait_until] of the [api] namespace are defined in the
    platform headers, not here.  Each acts on the operating system's state
    [W].  [wait] blocks until the process has ended and hands back its exit
    code through the reference it is given.  The bounded waits give
    [Some code] when the process ended within the bound (they return [true]
    and write [code] through the reference) and [None] on a timeout (they
    return [false] and leave the reference alone). *)
Class Platform (W : Type) : Type := {
  api_is_running : child_handle -> W -> bool * W;
  api_terminate : child_handle -> W -> W;
  api_wait : child_handle -> W -> Z * W;
  api_wait_for : child_handle -> duration -> W -> option Z * W;
  api_wait_until : child_handle -> time_point -> W -> option Z * W
}.

(** What reaches the platform, in program order. *)
Inductive os_call : Type :=
| is_running_call (h : child_handle)
| terminate_call (h : child_handle)
| wait_call (h : child_handle)
| wait_for_call (h : child_handle) (rel_time : duration)
| wait_until_call (h : child_handle) (timeout_time : time_point)
| delete_resource (p : Z)
| close_handle (p : native_handle_t).

(** A blocking call: it does not return before the process has ended or
    the bound has passed. *)
Definition is_wait_call (c : os_call) : bool :=
  match c with
  | wait_call _ | wait_for_call _ _ | wait_until_call _ _ => true
  | _ => false
  end.

(* ===================================================================== *)
(** ** class child *)
(* ===================================================================== *)

(** The data members, with their default member initializers in
    [child_default]. *)
Record child : Type := mk_child {
  _child_handle : child_handle;
  _resource : resource_ptr;
  _exited : bool;
  _exit_code : Z;
  _attached : bool
}.

(** [child() = default]. *)
Definition child_default : child :=
  {| _child_handle := None;
     _resource := None;
     _exited := false;
     _exit_code := -1;
     _attached := false |}.

(** [explicit child(child_handle &&ch, resource_t && resource = nullptr)]:
    the two members named in the initializer list are moved in, the others
    keep their default member initializers. *)
Definition child_ctor (ch : child_handle) (resource : resource_ptr) : child :=
  {| _child_handle := ch;
     _resource := resource;
     _exited := false;
     _exit_code := -1;
     _attached := false |}.

(** What another thread can read of the two atomics at one moment. *)
Definition snapshot : Type := (bool * Z)%type.

Definition observe (c : child) : snapshot := (_exited c, _exit_code c).

(** The object a member function runs on, the operating system around it,
    the platform calls made so far (oldest first) and the values the two
    atomics took after each store (oldest first). *)
Record machine (W : Type) : Type := mk_machine {
  self : child;
  os : W;
  calls : list os_call;
  seen : list snapshot
}.

Arguments mk_machine {W} self os calls seen.
Arguments self {W} m.
Arguments os {W} m.
Arguments calls {W} m.
Arguments seen {W} m.

(** A member function: a state transformer with a result. *)
Definition M (W A : Type) : Type := machine W -> A * machine W.

Definition ret {W A : Type} (a : A) : M W A := fun m => (a, m).

Definition bind {W A B : Type} (c : M W A) (k : A -> M W B) : M W B :=
  fun m => let (a, m') := c m in k a m'.

Declare Scope member_scope.
Delimit Scope member_scope with member.
Notation "x <- c ;; k" := (bind c (fun x => k))
  (at level 61, c at next level, right associativity) : member_scope.
Notation "c ;; k" := (bind c (fun _ => k))
  (at level 61, right associativity) : member_scope.

Definition exec {W A : Type} (c : M W A) (m : machine W) : machine W := snd (c m).
Definition result {W A : Type} (c : M W A) (m : machine W) : A := fst (c m).

(** A machine about to run a member function on [c] in the world [w]. *)
Definition start {W : Type} (c : child) (w : W) : machine W :=
  mk_machine c w [] [].

Section Members.

Context {W : Type} `{Platform W}.

Local Open Scope member_scope.

(** *** Reads and writes of the members *)

Definition this : M W child := fun m => (self m, m).

Definition load_exited : M W bool := fun m => (_exited (self m), m).

Definition load_exit_code : M W Z := fun m => (_exit_code (self m), m).

Definition set_exited (b : bool) (c : child) : child :=
  {| _child_handle := _child_handle c;
     _resource := _resource c;
     _exited := b;
     _exit_code := _exit_code c;
     _attached := _attached c |}.

Definition set_exit_code (z : Z) (c : child) : child :=
  {| _child_handle := _child_handle c;
     _resource := _resource c;
     _exited := _exited c;
     _exit_code := z;
     _attached := _attached c |}.

(** An atomic store: the member changes and the new pair of values is
    there for other threads to read. *)
Definition store (f : child -> child) : M W unit :=
  fun m =>
    let c := f (self m) in
    (tt, mk_machine c (os m) (calls m) (seen m ++ [observe c])).

Definition store_exited (b : bool) : M W unit := store (set_exited b).

Definition store_exit_code (z : Z) : M W unit := store (set_exit_code z).

Definition log (c : os_call) : M W unit :=
  fun m => (tt, mk_machine (self m) (os m) (calls m ++ [c]) (seen m)).

(** *** Calls into the platform, on [_child_handle] *)

Definition call_is_running : M W bool :=
  fun m =>
    let h := _child_handle (self m) in
    let (b, w) := api_is_running h (os m) in
    (b, mk_machine (self m) w (calls m ++ [is_running_call h]) (seen m)).

Definition call_terminate : M W unit :=
  fun m =>
    let h := _child_handle (self m) in
    let w := api_terminate h (os m) in
    (tt, mk_machine (self m) w (calls m ++ [terminate_call h]) (seen m)).

(** [api::wait(_child_handle, exit_code)] on a local [exit_code]: the
    result is the value of the local after the call. *)
Definition call_wait : M W Z :=
  fun m =>
    let h := _child_handle (self m) in
    let (code, w) := api_wait h (os m) in
    (code, mk_machine (self m) w (calls m ++ [wait_call h]) (seen m)).

(** A bounded wait that was handed the member [_exit_code] as the
    reference to write the exit code through. *)
Definition into_exit_code (r : option Z * W) (c : os_call) : M W bool :=
  fun m =>
    let (answer, w) := r in
    let m' := mk_machine (self m) w (calls m ++ [c]) (seen m) in
    match answer with
    | Some code => (true, exec (store_exit_code code) m')
    | None => (false, m')
    end.

(** [api::wait_for(_child_handle, _exit_code, rel_time)]. *)
Definition call_wait_for (rel_time : duration) : M W bool :=
  fun m =>
    let h := _child_handle (self m) in
    into_exit_code (api_wait_for h rel_time (os m)) (wait_for_call h rel_time) m.

(** [api::wait_until(_child_handle, _exit_code, timeout_time)]. *)
Definition call_wait_until (timeout_time : time_point) : M W bool :=
  fun m =>
    let h := _child_handle (self m) in
    into_exit_code (api_wait_until h timeout_time (os m))
                   (wait_until_call h timeout_time) m.

(** *** The member functions *)

Definition native_handle : M W child_handle :=
  c <- this ;; ret (_child_handle c).

Definition exit_code : M W Z := load_exit_code.

Definition valid : M W bool :=
  c <- this ;; ret (handle_valid (_child_handle c)).

Definition running : M W bool :=
  v <- valid ;;
  if v then call_is_running else ret false.

Definition terminate : M W unit := call_terminate.

Definition wait : M W unit :=
  e <- load_exited ;;
  if negb e then
    exit_code <- call_wait ;;
    store_exited true ;;
    store_exit_code exit_code
  else ret tt.

Definition wait_for (rel_time : duration) : M W bool :=
  e <- load_exited ;;
  if negb e then
    let exit_code := 0 in
    b <- call_wait_for rel_time ;;
    store_exited b ;;
    if negb b then ret false
    else (store_exit_code exit_code ;; ret true)
  else ret true.

Definition wait_until (timeout_time : time_point) : M W bool :=
  e <- load_exited ;;
  if negb e then
    let exit_code := 0 in
    b <- call_wait_until timeout_time ;;
    store_exited b ;;
    if negb b then ret false
    else (store_exit_code exit_code ;; ret true)
  else ret true.

(** The members are destroyed after the destructor's body, last declared
    first: the bundle pointer runs its deleter when it is not null, then
    the handle is closed when it is not empty. *)
Definition destroy_members : M W unit :=
  c <- this ;;
  match _resource c with
  | Some p => log (delete_resource p)
  | None => ret tt
  end ;;
  match _child_handle c with
  | Some p => log (close_handle p)
  | None => ret tt
  end.

(** [~child()]. *)
Definition destructor : M W unit :=
  e <- load_exited ;;
  c <- this ;;
  (if negb e && _attached c then wait else ret tt) ;;
  destroy_members.

End Members.

(* ===================================================================== *)
(** ** Moves *)
(* ===================================================================== *)

(** What a move leaves behind in [lhs]: the handle and the bundle pointer
    are emptied by their own moves, the two atomics and [_attached] are
    only read. *)
Definition moved_from (lhs : child) : child :=
  {| _child_handle := None;
     _resource := None;
     _exited := _exited lhs;
     _exit_code := _exit_code lhs;
     _attached := _attached lhs |}.

(** [child(child && lhs)]: the new object and what is left of [lhs]. *)
Definition move_ctor (lhs : child) : child * child :=
  ({| _child_handle := _child_handle lhs;
      _resource := _resource lhs;
      _exited := _exited lhs;
      _exit_code := _exit_code lhs;
      _attached := _attached lhs |},
   moved_from lhs).

Section Assignment.

Context {W : Type} `{Platform W}.

Local Open Scope member_scope.

Definition set_child_handle (h : child_handle) (c : child) : child :=
  {| _child_handle := h;
     _resource := _resource c;
     _exited := _exited c;
     _exit_code := _exit_code c;
     _attached := _attached c |}.

Definition set_resource (r : resource_ptr) (c : child) : child :=
  {| _child_handle := _child_handle c;
     _resource := r;
     _exited := _exited c;
     _exit_code := _exit_code c;
     _attached := _attached c |}.

Definition set_attached (b : bool) (c : child) : child :=
  {| _child_handle := _child_handle c;
     _resource := _resource c;
     _exited := _exited c;
     _exit_code := _exit_code c;
     _attached := b |}.

(** A write to a member that is not atomic. *)
Definition assign (f : child -> child) : M W unit :=
  fun m => (tt, mk_machine (f (self m)) (os m) (calls m) (seen m)).

(** Move assignment of a [unique_ptr]: the bundle owned before is deleted. *)
Definition reset_resource (r : resource_ptr) : M W unit :=
  c <- this ;;
  match _resource c with
  | Some p => log (delete_resource p)
  | None => ret tt
  end ;;
  assign (set_resource r).

(** [child& operator=(child && lhs)], on an [lhs] that is another object;
    the result is what is left of [lhs]. *)
Definition operator_assign (lhs : child) : M W child :=
  assign (set_child_handle (_child_handle lhs)) ;;
  reset_resource (_resource lhs) ;;
  store_exited (_exited lhs) ;;
  store_exit_code (_exit_code lhs) ;;
  assign (set_attached (_attached lhs)) ;;
  ret (moved_from lhs).

(** *** Sequences of calls on one owner *)

Inductive lifecycle_op : Type :=
| op_running
| op_terminate
| op_wait
| op_wait_for (rel_time : duration)
| op_wait_until (timeout_time : time_point).

Inductive operation : Type :=
| member (o : lifecycle_op)
| assign_from (lhs : child).

Definition perform_member (o : lifecycle_op) : M W unit :=
  match o with
  | op_running => running ;; ret tt
  | op_terminate => terminate
  | op_wait => wait
  | op_wait_for rel_time => wait_for rel_time ;; ret tt
  | op_wait_until timeout_time => wait_until timeout_time ;; ret tt
  end.

Definition perform (o : operation) : M W unit :=
  match o with
  | member o' => perform_member o'
  | assign_from lhs => operator_assign lhs ;; ret tt
  end.

Fixpoint perform_all (ops : list operation) : M W unit :=
  match ops with
  | [] => ret tt
  | o :: ops' => perform o ;; perform_all ops'
  end.

(** The owners a program can hold: built by a constructor, left behind
    by a move, or either of these after calls of member functions. *)
Inductive reachable : child -> Prop :=
| reach_default : reachable child_default
| reach_ctor (ch : child_handle) (resource : resource_ptr) :
    reachable (child_ctor ch resource)
| reach_move_ctor (lhs : child) :
    reachable lhs -> reachable (fst (move_ctor lhs))
| reach_moved_from (lhs : child) :
    reachable lhs -> reachable (moved_from lhs)
| reach_member (o : lifecycle_op) (m : machine W) :
    reachable (self m) -> reachable (self (exec (perform_member o) m))
| reach_assign (lhs : child) (m : machine W) :
    reachable (self m) -> reachable lhs ->
    reachable (self (exec (operator_assign lhs) m)).

(** [wait_for] and [wait_until] side by side: the bound of a bounded
    wait, the member that takes it and the platform's answer to it. *)
Inductive bound : Type :=
| within (rel_time : duration)
| before (timeout_time : time_point).

Definition bounded_wait (b : bound) : M W bool :=
  match b with
  | within rel_time => wait_for rel_time
  | before timeout_time => wait_until timeout_time
  end.

Definition platform_answer (b : bound) (h : child_handle) (w : W) : option Z * W :=
  match b with
  | within rel_time => api_wait_for h rel_time w
  | before timeout_time => api_wait_until h timeout_time w
  end.

(** The values of the atomics that can be read while [c] runs from [m]:
    those at the start and those after each of its stores. *)
Definition observable {A : Type} (c : M W A) (m : machine W) : list snapshot :=
  observe (self m) :: skipn (length (seen m)) (seen (exec c m)).

(** The platform calls [c] makes when run from [m]. *)
Definition calls_of {A : Type} (c : M W A) (m : machine W) : list os_call :=
  skipn (length (calls m)) (calls (exec c m)).

(** No value of the exited flag in [l] is [false] after one that was
    [true], [prev] being the value before the first of them. *)
Fixpoint never_reverts (prev : bool) (l : list snapshot) : bool :=
  match l with
  | [] => true
  | s :: l' => implb prev (fst s) && never_reverts (fst s) l'
  end.

(** The value of the exited flag after the stores in [l], [prev] being
    its value before them. *)
Fixpoint last_flag (prev : bool) (l : list snapshot) : bool :=
  match l with
  | [] => prev
  | s :: l' => last_flag (fst s) l'
  end.

(** What a run adds to [seen], why it never reverts, and that the flag of
    the owner it leaves is the last one stored. *)
Definition grows_monotonically {A : Type} (c : M W A) (m : machine W) : Prop :=
  exists extra,
    seen (exec c m) = seen m ++ extra /\
    never_reverts (_exited (self m)) extra = true /\
    last_flag (_exited (self m)) extra = _exited (self (exec c m)).

(** The calls that go to the platform's [api] functions, as opposed to the
    deleter of the bundle and the closing of the handle. *)
Definition is_api_call (c : os_call) : bool :=
  match c with
  | delete_resource _ | close_handle _ => false
  | _ => true
  end.

(** The bundles deleted by the calls in [l], in order. *)
Fixpoint deletions (l : list os_call) : list Z :=
  match l with
  | [] => []
  | delete_resource p :: l' => p :: deletions l'
  | _ :: l' => deletions l'
  end.

(** [c] owns the bundle at [p]. *)
Definition owns (c : child) (p : Z) : bool :=
  match _resource c with
  | Some q => p =? q
  | None => false
  end.

(** [lhs] and [c] are two objects: what one of them owns, handle or
    bundle, the other does not.  With single ownership this is so for any
    two owners; it is not for the two sides of [c = std::move(c)], unless
    [c] owns nothing. *)
Definition another_object (lhs c : child) : bool :=
  match _resource lhs, _resource c with
  | Some p, Some q => negb (p =? q)
  | _, _ => true
  end
  &&
  match _child_handle lhs, _child_handle c with
  | Some p, Some q => negb (p =? q)
  | _, _ => true
  end.

(** What a run of lifecycle members keeps to: it only adds [api] calls, it
    leaves the handle, the bundle pointer and [_attached] alone, on an
    owner that has exited it changes no member and waits for nothing, and
    it sets the exited flag only after a waiting call. *)
Definition keeps_to_lifecycle {A : Type} (c : M W A) (m : machine W) : Prop :=
  exists extra,
    calls (exec c m) = calls m ++ extra /\
    forallb is_api_call extra = true /\
    (_child_handle (self (exec c m)) = _child_handle (self m) /\
     _resource (self (exec c m)) = _resource (self m) /\
     _attached (self (exec c m)) = _attached (self m)) /\
    (_exited (self m) = true ->
     existsb is_wait_call extra = false /\
     self (exec c m) = self m /\
     seen (exec c m) = seen m) /\
    (_exited (self m) = false ->
     _exited (self (exec c m)) = true ->
     existsb is_wait_call extra = true).

End Assignment.

(* ===================================================================== *)
(** ** A platform to run the members on *)
(* ===================================================================== *)

Module Clockwork.

(** Modelled from the spec: a stand-in for the platform headers.  Every
    process in the table ends at a fixed time with a fixed exit code;
    waiting moves the clock, and a bounded wait succeeds when the process
    ends no later than its bound. *)
Record process : Type := mk_process {
  ends_at : time_point;
  status : Z
}.

Record world : Type := mk_world {
  now : time_point;
  table : list (native_handle_t * process)
}.

Fixpoint find_process (p : native_handle_t)
         (t : list (native_handle_t * process)) : option process :=
  match t with
  | [] => None
  | (q, e) :: t' => if p =? q then Some e else find_process p t'
  end.

Definition lookup (h : child_handle) (w : world) : option process :=
  match h with
  | Some p => find_process p (table w)
  | None => None
  end.

Definition sys_is_running (h : child_handle) (w : world) : bool * world :=
  match lookup h w with
  | Some e => (now w <? ends_at e, w)
  | None => (false, w)
  end.

(** A process that is still running ends now, with the status of a kill. *)
Definition kill (p : native_handle_t) (w : world)
           (entry : native_handle_t * process) : native_handle_t * process :=
  let (q, e) := entry in
  if (p =? q) && (now w <? ends_at e) then (q, mk_process (now w) 9) else (q, e).

Definition sys_terminate (h : child_handle) (w : world) : world :=
  match h with
  | Some p => mk_world (now w) (map (kill p w) (table w))
  | None => w
  end.

Definition sys_wait (h : child_handle) (w : world) : Z * world :=
  match lookup h w with
  | Some e => (status e, mk_world (Z.max (now w) (ends_at e)) (table w))
  | None => (0, w)
  end.

Definition sys_wait_until (h : child_handle) (timeout_time : time_point)
           (w : world) : option Z * world :=
  match lookup h w with
  | Some e =>
      if ends_at e <=? timeout_time
      then (Some (status e), mk_world (Z.max (now w) (ends_at e)) (table w))
      else (None, mk_world (Z.max (now w) timeout_time) (table w))
  | None => (None, mk_world (Z.max (now w) timeout_time) (table w))
  end.

Definition sys_wait_for (h : child_handle) (rel_time : duration)
           (w : world) : option Z * world :=
  sys_wait_until h (now w + rel_time) w.

#[export] Instance platform : Platform world := {
  api_is_running := sys_is_running;
  api_terminate := sys_terminate;
  api_wait := sys_wait;
  api_wait_for := sys_wait_for;
  api_wait_until := sys_wait_until
}.

(** One process, [pid], that ends at time [t] with exit code [code]. *)
Definition one_process (pid : native_handle_t) (t : time_point) (code : Z) : world :=
  mk_world 0 [(pid, mk_process t code)].

(** An owner of process 5, as a launcher builds it, without and with a
    bundle. *)
Definition owner : child := child_ctor (Some 5) None.
Definition owner_with_pipe : child := child_ctor (Some 5) (Some 100).

(** Process 5 ends at time 50 with the given exit code. *)
Definition ends_with (code : Z) : world := one_process 5 50 code.

(** An owner of process 5 with a bundle, attached and not exited: a state
    of the members that no constructor gives, and that the moves and the
    destructor have code for. *)
Definition attached_owner : child :=
  {| _child_handle := Some 5;
     _resource := Some 100;
     _exited := false;
     _exit_code := -1;
     _attached := true |}.

(** An owner of another process, 6, with a bundle of its own. *)
Definition owner_with_bundle_200 : child := child_ctor (Some 6) (Some 200).

(** The same, attached and not exited. *)
Definition attached_owner_of_6 : child :=
  {| _child_handle := Some 6;
     _resource := Some 200;
     _exited := false;
     _exit_code := -1;
     _attached := true |}.

End Clockwork.

(* ===================================================================== *)
(** ** Properties of the resource bundle *)
(* ===================================================================== *)

Section BundleFacts.

Context {Arg Res : Type} (initializer_resource : Arg -> detail.resolved Res).

Lemma filter_none_has_no_resource (vs : list (detail.resolved Res)) :
  detail.concrete_resources (filter detail.decltype_is_none vs) = [].
Proof.
  induction vs as [|v vs IH]; simpl; [reflexivity|].
  destruct v; simpl; exact IH.
Qed.

(** C1, on the code: the predicate handed to [hana::filter] holds for the
    [boost::none] entries, and [filter] keeps what its predicate holds
    for; the [maker] lambda can then build the aggregate without bases
    only.  Whatever the arguments, every base of an aggregate that is built
    is a [boost::none], no concrete resource is in it, and in fact it is
    [resource_t<>] or the call does not instantiate. *)
Theorem make_resource_keeps_only_none (tup : list Arg) :
  Forall (fun v => v = detail.none)
         (detail.bases (detail.make_resource initializer_resource tup)) /\
  detail.concrete_resources
    (detail.bases (detail.make_resource initializer_resource tup)) = [] /\
  (detail.make_resource initializer_resource tup = Some [] \/
   detail.make_resource initializer_resource tup = None).
Proof.
  unfold detail.make_resource, detail.unpack, detail.maker.
  destruct (filter detail.decltype_is_none (map initializer_resource tup))
    as [|v kept]; simpl.
  - repeat split; [constructor | left; reflexivity].
  - repeat split; [constructor | right; reflexivity].
Qed.

End BundleFacts.

(** Two pipes to keep alive: they are what the bundle is specified to own,
    and the aggregate that is built owns neither.  With an argument that
    needs nothing next to a pipe, no aggregate is built at all. *)
Example make_resource_loses_the_pipes :
  let init := fun v : detail.resolved nat => v in
  detail.concrete_resources (map init [detail.resource 1%nat; detail.resource 2%nat])
    = [1%nat; 2%nat] /\
  detail.make_resource init [detail.resource 1%nat; detail.resource 2%nat] = Some [] /\
  detail.make_resource init [detail.resource 1%nat; detail.none] = None.
Proof. repeat split. Qed.

(* ===================================================================== *)
(** ** Properties of the members *)
(* ===================================================================== *)

Lemma skipn_length_app {A : Type} (l x : list A) :
  skipn (length l) (l ++ x) = x.
Proof. induction l as [|a l IH]; simpl; [reflexivity | exact IH]. Qed.

Lemma skipn_length_self {A : Type} (l : list A) : skipn (length l) l = [].
Proof. induction l as [|a l IH]; simpl; [reflexivity | exact IH]. Qed.

Lemma set_exited_same (c : child) : set_exited (_exited c) c = c.
Proof. destruct c; reflexivity. Qed.

(** Unfold a member function down to the machine it leaves. *)
Ltac run :=
  unfold observable, calls_of, bounded_wait, platform_answer,
    destructor, destroy_members, wait, wait_for, wait_until, running,
    terminate, valid, exit_code, native_handle, call_wait, call_wait_for,
    call_wait_until, call_is_running, call_terminate, into_exit_code,
    store_exited, store_exit_code, store, log, load_exited, load_exit_code,
    this, bind, ret, start, exec, result in *;
  cbn [self os calls seen fst snd negb andb
       _child_handle _resource _exited _exit_code _attached
       set_exited set_exit_code observe] in *.

Section MemberFacts.

Context {W : Type} `{Platform W}.

Local Open Scope member_scope.

(** *** Attachment *)

Lemma perform_member_attached (o : lifecycle_op) (m : machine W) :
  _attached (self (exec (perform_member o) m)) = _attached (self m).
Proof.
  destruct o; unfold perform_member; run.
  - destruct (handle_valid _); [destruct (api_is_running _ _) |]; reflexivity.
  - reflexivity.
  - destruct (_exited (self m)); simpl; [reflexivity|].
    destruct (api_wait _ _); reflexivity.
  - destruct (_exited (self m)); simpl; [reflexivity|].
    destruct (api_wait_for _ _ _) as [[code|] w]; reflexivity.
  - destruct (_exited (self m)); simpl; [reflexivity|].
    destruct (api_wait_until _ _ _) as [[code|] w]; reflexivity.
Qed.

Lemma operator_assign_self (lhs : child) (m : machine W) :
  self (exec (operator_assign lhs) m) = lhs.
Proof.
  unfold operator_assign, reset_resource, assign. run.
  destruct m as [[h r e x a] w cs sn], lhs. simpl.
  destruct r; reflexivity.
Qed.

(** No owner a program can hold is attached: [_attached] starts as
    [false] and is only ever copied. *)
Lemma reachable_not_attached (c : child) :
  reachable c -> _attached c = false.
Proof.
  induction 1 as [| | lhs _ IH | lhs _ IH | o m _ IH | lhs m _ _ _ IH].
  - reflexivity.
  - reflexivity.
  - exact IH.
  - exact IH.
  - rewrite perform_member_attached. exact IH.
  - rewrite operator_assign_self. exact IH.
Qed.

(** C2, on the code: the constructor from a handle leaves [_attached] at
    its default member initializer, [false].  The destructor of such an
    owner, whatever the state of its process, makes no waiting call and
    leaves the operating system as it found it. *)
Theorem ctor_owner_is_never_waited_for
    (ch : child_handle) (resource : resource_ptr) (w : W) :
  _attached (child_ctor ch resource) = false /\
  existsb is_wait_call (calls (exec destructor (start (child_ctor ch resource) w))) = false /\
  os (exec destructor (start (child_ctor ch resource) w)) = w.
Proof.
  run. destruct resource, ch; repeat split.
Qed.

(** *** wait *)

Lemma wait_exited (m : machine W) : _exited (self (exec wait m)) = true.
Proof.
  run. destruct (_exited (self m)) eqn:E; simpl; [exact E|].
  destruct (api_wait _ _); reflexivity.
Qed.

Lemma wait_when_exited (m : machine W) :
  _exited (self m) = true -> exec wait m = m.
Proof. intros E. run. rewrite E. reflexivity. Qed.

(** C8: after a first [wait()] the owner has exited; a second [wait()]
    leaves the whole machine as it is (no platform call, no store, the
    same operating-system state), so [exit_code()] answers the same
    after both. *)
Theorem wait_idempotent (m : machine W) :
  _exited (self (exec wait m)) = true /\
  exec wait (exec wait m) = exec wait m /\
  calls_of wait (exec wait m) = [] /\
  result exit_code (exec wait (exec wait m)) = result exit_code (exec wait m).
Proof.
  pose proof (wait_exited m) as E.
  pose proof (wait_when_exited _ E) as Same.
  repeat split.
  - exact E.
  - exact Same.
  - unfold calls_of. rewrite Same. apply skipn_length_self.
  - rewrite Same. reflexivity.
Qed.

(** *** wait_for and wait_until *)

(** C10: on an owner that has exited, a bounded wait with any bound
    returns [true] and leaves the whole machine as it is: no platform
    call, no store, the exited flag and the exit code as they were. *)
Theorem bounded_wait_after_exit (b : bound) (m : machine W) :
  _exited (self m) = true ->
  result (bounded_wait b) m = true /\
  exec (bounded_wait b) m = m /\
  calls_of (bounded_wait b) m = [].
Proof.
  intros E. destruct b; run; rewrite E; simpl;
    (repeat split; apply skipn_length_self).
Qed.

(** C6: on an owner that has not exited, a bounded wait the platform
    answers with a timeout returns [false] and leaves the owner as it
    was: the exited flag still [false], the stored exit code untouched. *)
Theorem bounded_wait_timeout (b : bound) (m : machine W) :
  _exited (self m) = false ->
  fst (platform_answer b (_child_handle (self m)) (os m)) = None ->
  result (bounded_wait b) m = false /\
  self (exec (bounded_wait b) m) = self m /\
  _exited (self (exec (bounded_wait b) m)) = false /\
  _exit_code (self (exec (bounded_wait b) m)) = _exit_code (self m).
Proof.
  intros E T. destruct b; run; rewrite E; simpl.
  - destruct (api_wait_for _ _ _) as [[code|] w]; [discriminate|]. simpl.
    rewrite <- E, set_exited_same. repeat split.
  - destruct (api_wait_until _ _ _) as [[code|] w]; [discriminate|]. simpl.
    rewrite <- E, set_exited_same. repeat split.
Qed.

(** C3, on the code: when the platform reports that the process ended
    within the bound with the exit code [code], the bounded wait returns
    [true] and sets the exited flag, but the value it then stores is its
    local [exit_code], which is still the [0] it was initialised with:
    [exit_code()] answers [0], whatever [code] is. *)
Theorem bounded_wait_success_stores_zero (b : bound) (m : machine W) (code : Z) :
  _exited (self m) = false ->
  fst (platform_answer b (_child_handle (self m)) (os m)) = Some code ->
  result (bounded_wait b) m = true /\
  _exited (self (exec (bounded_wait b) m)) = true /\
  result exit_code (exec (bounded_wait b) m) = 0.
Proof.
  intros E T. destruct b; run; rewrite E; simpl.
  - destruct (api_wait_for _ _ _) as [[code'|] w]; [|discriminate].
    repeat split.
  - destruct (api_wait_until _ _ _) as [[code'|] w]; [|discriminate].
    repeat split.
Qed.

(** C4, as the code has it: [wait()] on an owner that has not exited
    sets the exited flag first and stores the exit code after it.  What
    can be read is, in order: the values before the call; the exited flag
    [true] with the exit code that was stored before the call; the exited
    flag [true] with the exit code the platform reported, which is also
    what the owner holds when [wait()] returns. *)
Theorem wait_sets_flag_then_code (m : machine W) :
  _exited (self m) = false ->
  observable wait m =
    [ observe (self m);
      (true, _exit_code (self m));
      (true, fst (api_wait (_child_handle (self m)) (os m))) ] /\
  observe (self (exec wait m)) =
    (true, fst (api_wait (_child_handle (self m)) (os m))).
Proof.
  intros E. run. rewrite E. simpl.
  destruct (api_wait _ _) as [code w]. simpl.
  rewrite <- app_assoc, skipn_length_app. split; reflexivity.
Qed.

(** *** Moves *)

Lemma destructor_of_moved_from (a : child) (w : W) :
  _attached a = false ->
  exec destructor (start (moved_from a) w) = start (moved_from a) w.
Proof.
  intros A. run. unfold moved_from. simpl. rewrite A.
  rewrite andb_false_r. reflexivity.
Qed.

(** Whatever the members of [a] were, the destructor of what a move left
    of it deletes no bundle and closes no handle; the one call it can make
    is the [wait] of an attached owner that has not exited, on the empty
    handle. *)
Remark destructor_of_moved_from_calls (a : child) (w : W) :
  Forall (fun c => c = wait_call None)
         (calls (exec destructor (start (moved_from a) w))).
Proof.
  run. unfold moved_from. simpl.
  destruct (_exited a), (_attached a); simpl; try constructor.
  destruct (api_wait None w) as [code w']; simpl.
  repeat constructor.
Qed.

(** C5: for every state of an owner [a], attached or not, exited or not,
    and every other object [b], both [child b(move(a))] and [b = move(a)]
    leave [a] with an empty handle and a null bundle pointer, so
    [a.valid()] is [false], and give [b] all five members as [a] had them;
    the assignment deletes nothing of what [b] now owns.  The destructor
    of what is left of [a] runs no deleter and closes no handle; it does
    nothing at all, unless [a] was attached and had not exited: then it is
    the [wait()] of an owner with an empty handle, and that call on the
    empty handle is the one call it makes. *)
Theorem move_transfers_ownership (a : child) (m : machine W) (w : W) :
  another_object a (self m) = true ->
  (result valid (start (snd (move_ctor a)) w) = false /\
   fst (move_ctor a) = a /\
   snd (move_ctor a) = moved_from a) /\
  (result valid (start (result (operator_assign a) m) w) = false /\
   self (exec (operator_assign a) m) = a /\
   result (operator_assign a) m = moved_from a /\
   existsb (owns a) (deletions (calls_of (operator_assign a) m)) = false) /\
  (_child_handle (moved_from a) = None /\
   _resource (moved_from a) = None /\
   exec destructor (start (moved_from a) w)
     = (if negb (_exited a) && _attached a
        then exec wait (start (moved_from a) w)
        else start (moved_from a) w) /\
   Forall (fun c => c = wait_call None)
          (calls (exec destructor (start (moved_from a) w)))).
Proof.
  intros Apart.
  assert (Left : result (operator_assign a) m = moved_from a).
  { unfold operator_assign, reset_resource, assign. run.
    destruct m as [[h r e x t] w0 cs sn]. simpl. destruct r; reflexivity. }
  rewrite Left. cbn [move_ctor fst snd]. repeat split.
  - destruct a; reflexivity.
  - apply operator_assign_self.
  - destruct m as [[h r e x t] w0 cs sn].
    unfold another_object in Apart. simpl in Apart.
    unfold operator_assign, reset_resource, assign, owns. run.
    destruct r as [q|]; simpl;
      rewrite ?skipn_length_app, ?skipn_length_self; simpl; [|reflexivity].
    destruct (_resource a) as [p|]; [|reflexivity].
    apply andb_true_iff in Apart. destruct Apart as [Apart _].
    rewrite Z.eqb_sym, orb_false_r. apply negb_true_iff. exact Apart.
  - run. unfold moved_from. simpl.
    destruct (_exited a), (_attached a); simpl; try reflexivity.
    destruct (api_wait None w) as [code w']. reflexivity.
  - apply destructor_of_moved_from_calls.
Qed.

(** *** The exited flag along a sequence of calls *)

Lemma never_reverts_app (p : bool) (l1 l2 : list snapshot) :
  never_reverts p (l1 ++ l2)
  = never_reverts p l1 && never_reverts (last_flag p l1) l2.
Proof.
  revert p. induction l1 as [|s l1 IH]; intros p; simpl; [reflexivity|].
  rewrite IH, andb_assoc. reflexivity.
Qed.

Lemma last_flag_app (p : bool) (l1 l2 : list snapshot) :
  last_flag p (l1 ++ l2) = last_flag (last_flag p l1) l2.
Proof.
  revert p. induction l1 as [|s l1 IH]; intros p; simpl; [reflexivity | apply IH].
Qed.

Lemma perform_member_monotone (o : lifecycle_op) (m : machine W) :
  grows_monotonically (perform_member o) m.
Proof.
  unfold grows_monotonically.
  destruct o; unfold perform_member; run.
  - exists []. rewrite app_nil_r.
    destruct (handle_valid _); [destruct (api_is_running _ _) |]; repeat split.
  - exists []. rewrite app_nil_r. repeat split.
  - destruct (_exited (self m)) eqn:E; simpl.
    + exists []. rewrite app_nil_r, E. repeat split.
    + destruct (api_wait _ _) as [code w]. simpl.
      eexists. rewrite <- app_assoc. repeat split.
  - destruct (_exited (self m)) eqn:E; simpl.
    + exists []. rewrite app_nil_r, E. repeat split.
    + destruct (api_wait_for _ _ _) as [[code|] w]; simpl.
      * eexists. rewrite <- !app_assoc. split; [reflexivity|].
        simpl. rewrite E. repeat split.
      * eexists. split; [reflexivity|]. repeat split.
  - destruct (_exited (self m)) eqn:E; simpl.
    + exists []. rewrite app_nil_r, E. repeat split.
    + destruct (api_wait_until _ _ _) as [[code|] w]; simpl.
      * eexists. rewrite <- !app_assoc. split; [reflexivity|].
        simpl. rewrite E. repeat split.
      * eexists. split; [reflexivity|]. repeat split.
Qed.

Lemma perform_all_monotone (ops : list lifecycle_op) (m : machine W) :
  grows_monotonically (perform_all (map member ops)) m.
Proof.
  revert m. induction ops as [|o ops IH]; intros m.
  - exists []. simpl. rewrite app_nil_r. repeat split.
  - destruct (perform_member_monotone o m) as [x1 [S1 [N1 L1]]].
    destruct (IH (exec (perform_member o) m)) as [x2 [S2 [N2 L2]]].
    assert (Step : exec (perform_all (map member (o :: ops))) m
                   = exec (perform_all (map member ops)) (exec (perform_member o) m)).
    { simpl. unfold exec, bind.
      destruct (perform_member o m) as [u m1]. reflexivity. }
    exists (x1 ++ x2). rewrite Step, S2, S1, <- app_assoc.
    split; [reflexivity|].
    rewrite never_reverts_app, last_flag_app, N1, L1. split; assumption.
Qed.

(** C7, as the code has it: along every sequence of calls of
    [running()], [terminate()], [wait()], [wait_for()] and
    [wait_until()] on an owner, from any state, the values of the exited
    flag that can be read never go from [true] to [false], and the flag
    the owner ends with is [true] if the one it started with was. *)
Theorem exited_never_reverts (ops : list lifecycle_op) (m : machine W) :
  never_reverts false (observable (perform_all (map member ops)) m) = true /\
  implb (_exited (self m))
        (_exited (self (exec (perform_all (map member ops)) m))) = true.
Proof.
  destruct (perform_all_monotone ops m) as [x [S [N L]]].
  unfold observable. rewrite S, skipn_length_app. simpl. split.
  - rewrite N. destruct (_exited (self m)); reflexivity.
  - rewrite <- L. clear S L.
    revert N. generalize (_exited (self m)) as p.
    induction x as [|s x IH]; intros p N; simpl in *.
    + destruct p; reflexivity.
    + apply andb_true_iff in N. destruct N as [N1 N2].
      specialize (IH _ N2).
      destruct p, (fst s), (last_flag _ x); try reflexivity; discriminate.
  Qed.

(** *** Owners with an empty handle *)

(** C9, as the code has it: on an owner with an empty handle that a
    program can hold, [valid()] and [running()] return [false] and
    [running()] leaves the whole machine as it is (no platform call);
    [exit_code()] returns the stored exit code, which is [-1] for a
    default-constructed owner and, for a moved-from owner, the value
    [a] held when it was moved from; [terminate()] leaves the owner as it
    is; the destructor makes no waiting call and leaves the operating
    system as it is. *)
Theorem empty_owner_operations (m : machine W) (a : child) :
  reachable (self m) ->
  _child_handle (self m) = None ->
  result valid m = false /\
  (result running m = false /\ exec running m = m) /\
  (result exit_code m = _exit_code (self m) /\
   result exit_code (start child_default (os m)) = -1 /\
   result exit_code (start (moved_from a) (os m)) = _exit_code a) /\
  self (exec terminate m) = self m /\
  (existsb is_wait_call (calls_of destructor m) = false /\
   os (exec destructor m) = os m).
Proof.
  intros R E. apply reachable_not_attached in R.
  destruct m as [[h r e x t] w cs sn]. simpl in R, E. subst h t.
  run. rewrite andb_false_r.
  destruct r as [p|]; simpl;
    rewrite ?skipn_length_app, ?skipn_length_self; repeat split.
Qed.

End MemberFacts.

(* ===================================================================== *)
(** ** The members run on the clockwork platform *)
(* ===================================================================== *)

Import Clockwork.

Local Open Scope member_scope.

(** The scenario of the specification: the process ends with 0 after 50
    ticks; [wait_for(10)] times out, [wait_for(100)] succeeds. *)
Example wait_for_scenario :
  result (wait_for 10) (start owner (ends_with 0)) = false /\
  result (wait_for 10 ;; wait_for 100) (start owner (ends_with 0)) = true /\
  result (wait_for 10 ;; wait_for 100 ;; exit_code) (start owner (ends_with 0)) = 0.
Proof. repeat split. Qed.

(** The same with exit code 7: both bounded waits succeed within 100
    ticks, and [exit_code()] answers 0 after them. *)
Example bounded_waits_lose_exit_code_7 :
  fst (api_wait_for (Some 5) 100 (ends_with 7)) = Some 7 /\
  result (wait_for 100) (start owner (ends_with 7)) = true /\
  result (wait_for 100 ;; exit_code) (start owner (ends_with 7)) = 0 /\
  result (wait_until 100) (start owner (ends_with 7)) = true /\
  result (wait_until 100 ;; exit_code) (start owner (ends_with 7)) = 0 /\
  result (wait ;; exit_code) (start owner (ends_with 7)) = 7.
Proof. repeat split. Qed.

Lemma bounded_wait_success_stores_zero_witness :
  _exited (self (start owner (ends_with 7))) = false /\
  fst (platform_answer (within 100) (_child_handle (self (start owner (ends_with 7))))
                       (os (start owner (ends_with 7)))) = Some 7 /\
  result (bounded_wait (within 100)) (start owner (ends_with 7)) = true /\
  _exited (self (exec (bounded_wait (within 100)) (start owner (ends_with 7)))) = true /\
  result exit_code (exec (bounded_wait (within 100)) (start owner (ends_with 7))) = 0.
Proof.
  split; [reflexivity|]. split; [reflexivity|].
  exact (bounded_wait_success_stores_zero (within 100) (start owner (ends_with 7)) 7
           eq_refl eq_refl).
Defined.

(** The owner of a process that runs for another 50 ticks goes out of
    scope: its destructor deletes the bundle and closes the handle, and
    waits for nothing. *)
Example ctor_owner_goes_out_of_scope :
  result running (start owner_with_pipe (ends_with 7)) = true /\
  calls (exec destructor (start owner_with_pipe (ends_with 7)))
    = [delete_resource 100; close_handle 5] /\
  os (exec destructor (start owner_with_pipe (ends_with 7))) = ends_with 7.
Proof. repeat split. Qed.

Lemma bounded_wait_timeout_witness :
  _exited (self (start owner (ends_with 0))) = false /\
  fst (platform_answer (before 10) (_child_handle (self (start owner (ends_with 0))))
                       (os (start owner (ends_with 0)))) = None /\
  result (bounded_wait (before 10)) (start owner (ends_with 0)) = false /\
  self (exec (bounded_wait (before 10)) (start owner (ends_with 0))) = owner /\
  _exited (self (exec (bounded_wait (before 10)) (start owner (ends_with 0)))) = false /\
  _exit_code (self (exec (bounded_wait (before 10)) (start owner (ends_with 0)))) = -1.
Proof.
  split; [reflexivity|]. split; [reflexivity|].
  exact (bounded_wait_timeout (before 10) (start owner (ends_with 0)) eq_refl eq_refl).
Defined.

Lemma bounded_wait_after_exit_witness :
  _exited (self (exec wait (start owner (ends_with 42)))) = true /\
  result (bounded_wait (within 0)) (exec wait (start owner (ends_with 42))) = true /\
  exec (bounded_wait (within 0)) (exec wait (start owner (ends_with 42)))
    = exec wait (start owner (ends_with 42)) /\
  calls_of (bounded_wait (within 0)) (exec wait (start owner (ends_with 42))) = [].
Proof.
  split; [reflexivity|].
  exact (bounded_wait_after_exit (within 0) (exec wait (start owner (ends_with 42)))
           eq_refl).
Defined.

(** C4 as it is stated fails: while [wait()] runs on the owner of a
    process that ends with 42, the exited flag can be read as [true]
    together with the sentinel [-1]. *)
Lemma wait_shows_flag_before_code :
  fst (api_wait (Some 5) (ends_with 42)) = 42 /\
  observable wait (start owner (ends_with 42)) = [(false, -1); (true, -1); (true, 42)] /\
  ~ (forall s : snapshot,
       In s (observable wait (start owner (ends_with 42))) ->
       fst s = true -> snd s = 42).
Proof.
  split; [reflexivity|]. split; [reflexivity|].
  intros Claim. specialize (Claim (true, -1)).
  assert (Absurd : snd (true, -1) = 42).
  { apply Claim; [right; left |]; reflexivity. }
  discriminate Absurd.
Qed.

Lemma wait_sets_flag_then_code_witness :
  _exited (self (start owner (ends_with 42))) = false /\
  observable wait (start owner (ends_with 42)) =
    [ observe owner; (true, _exit_code owner); (true, 42) ] /\
  observe (self (exec wait (start owner (ends_with 42)))) = (true, 42).
Proof.
  split; [reflexivity|].
  exact (wait_sets_flag_then_code (start owner (ends_with 42)) eq_refl).
Defined.

Lemma move_transfers_ownership_witness :
  another_object attached_owner (self (start owner_with_bundle_200 (ends_with 7))) = true /\
  (result valid (start (snd (move_ctor attached_owner)) (ends_with 7)) = false /\
   fst (move_ctor attached_owner) = attached_owner /\
   snd (move_ctor attached_owner) = moved_from attached_owner) /\
  (result valid
     (start (result (operator_assign attached_owner)
                    (start owner_with_bundle_200 (ends_with 7))) (ends_with 7)) = false /\
   self (exec (operator_assign attached_owner) (start owner_with_bundle_200 (ends_with 7)))
     = attached_owner /\
   result (operator_assign attached_owner) (start owner_with_bundle_200 (ends_with 7))
     = moved_from attached_owner /\
   existsb (owns attached_owner)
     (deletions (calls_of (operator_assign attached_owner)
                          (start owner_with_bundle_200 (ends_with 7)))) = false) /\
  (_child_handle (moved_from attached_owner) = None /\
   _resource (moved_from attached_owner) = None /\
   exec destructor (start (moved_from attached_owner) (ends_with 7))
     = exec wait (start (moved_from attached_owner) (ends_with 7)) /\
   Forall (fun c => c = wait_call None)
          (calls (exec destructor (start (moved_from attached_owner) (ends_with 7))))).
Proof.
  split; [reflexivity|].
  exact (move_transfers_ownership attached_owner
           (start owner_with_bundle_200 (ends_with 7)) (ends_with 7) eq_refl).
Defined.

(** The same moves on an owner as the constructor builds it: what is left
    of it is destroyed without any call. *)
Example moved_from_ctor_owner_is_destroyed_silently :
  self (exec (operator_assign owner_with_pipe) (start owner_with_bundle_200 (ends_with 7)))
    = owner_with_pipe /\
  calls (exec (operator_assign owner_with_pipe) (start owner_with_bundle_200 (ends_with 7)))
    = [delete_resource 200] /\
  exec destructor (start (moved_from owner_with_pipe) (ends_with 7))
    = start (moved_from owner_with_pipe) (ends_with 7).
Proof. repeat split. Qed.

(** C7 as it is stated fails: an owner that has exited is assigned an
    owner of a process that has not, and its exited flag goes back to
    [false]. *)
Lemma assignment_reverts_exited :
  _exited (self (exec wait (start owner (ends_with 0)))) = true /\
  _exited (self (exec (perform (assign_from (child_ctor (Some 6) None)))
                      (exec wait (start owner (ends_with 0))))) = false /\
  never_reverts false
    (observable (perform_all [member op_wait; assign_from (child_ctor (Some 6) None)])
                (start owner (ends_with 0))) = false.
Proof. repeat split. Qed.

(** C9 as it is stated fails: an owner that was waited for and then
    moved from has an empty handle, and its [exit_code()] is the 42 it
    stored, not the sentinel. *)
Lemma moved_from_keeps_exit_code :
  _child_handle (moved_from (self (exec wait (start owner (ends_with 42))))) = None /\
  result valid
    (start (moved_from (self (exec wait (start owner (ends_with 42))))) (ends_with 42))
    = false /\
  result exit_code
    (start (moved_from (self (exec wait (start owner (ends_with 42))))) (ends_with 42))
    = 42 /\
  42 <> -1.
Proof. repeat split. discriminate. Qed.

Lemma empty_owner_operations_witness :
  reachable (W := world) (self (start (moved_from owner_with_pipe) (ends_with 7))) /\
  _child_handle (self (start (moved_from owner_with_pipe) (ends_with 7))) = None /\
  result valid (start (moved_from owner_with_pipe) (ends_with 7)) = false /\
  (result running (start (moved_from owner_with_pipe) (ends_with 7)) = false /\
   exec running (start (moved_from owner_with_pipe) (ends_with 7))
     = start (moved_from owner_with_pipe) (ends_with 7)) /\
  (result exit_code (start (moved_from owner_with_pipe) (ends_with 7))
     = _exit_code (self (start (moved_from owner_with_pipe) (ends_with 7))) /\
   result exit_code (start child_default (os (start (moved_from owner_with_pipe) (ends_with 7)))) = -1 /\
   result exit_code (start (moved_from owner) (os (start (moved_from owner_with_pipe) (ends_with 7))))
     = _exit_code owner) /\
  self (exec terminate (start (moved_from owner_with_pipe) (ends_with 7)))
    = self (start (moved_from owner_with_pipe) (ends_with 7)) /\
  (existsb is_wait_call
     (calls_of destructor (start (moved_from owner_with_pipe) (ends_with 7))) = false /\
   os (exec destructor (start (moved_from owner_with_pipe) (ends_with 7)))
     = os (start (moved_from owner_with_pipe) (ends_with 7))).
Proof.
  split; [apply reach_moved_from, reach_ctor|]. split; [reflexivity|].
  exact (empty_owner_operations (start (moved_from owner_with_pipe) (ends_with 7)) owner
           (reach_moved_from _ (reach_ctor (Some 5) (Some 100))) eq_refl).
Defined.


(* ===================================================================== *)
(** ** Further properties of the members *)
(* ===================================================================== *)

Section MoreMemberFacts.

Context {W : Type} `{Platform W}.

Local Open Scope member_scope.

(** *** Which members go to the platform *)

(** X3: [running()] is the one member that looks at [valid()] before it
    calls the platform; [terminate()] always makes its call, and the waits
    make theirs whenever the owner has not exited, on whatever handle the
    owner has, the empty one included.  [running()] and [terminate()]
    change no member. *)
Theorem platform_calls_of_members
    (m : machine W) (rel_time : duration) (timeout_time : time_point) :
  calls_of running m
    = (if handle_valid (_child_handle (self m))
       then [is_running_call (_child_handle (self m))] else []) /\
  calls_of terminate m = [terminate_call (_child_handle (self m))] /\
  calls_of wait m
    = (if _exited (self m) then [] else [wait_call (_child_handle (self m))]) /\
  calls_of (wait_for rel_time) m
    = (if _exited (self m) then []
       else [wait_for_call (_child_handle (self m)) rel_time]) /\
  calls_of (wait_until timeout_time) m
    = (if _exited (self m) then []
       else [wait_until_call (_child_handle (self m)) timeout_time]) /\
  self (exec running m) = self m /\
  self (exec terminate m) = self m.
Proof.
  run. repeat split.
  - destruct (handle_valid _); simpl.
    + destruct (api_is_running _ _); simpl. apply skipn_length_app.
    + apply skipn_length_self.
  - apply skipn_length_app.
  - destruct (_exited (self m)); simpl.
    + apply skipn_length_self.
    + destruct (api_wait _ _); simpl. apply skipn_length_app.
  - destruct (_exited (self m)); simpl.
    + apply skipn_length_self.
    + destruct (api_wait_for _ _ _) as [[code|] w]; simpl; apply skipn_length_app.
  - destruct (_exited (self m)); simpl.
    + apply skipn_length_self.
    + destruct (api_wait_until _ _ _) as [[code|] w]; simpl; apply skipn_length_app.
  - destruct (handle_valid _); simpl; [destruct (api_is_running _ _)|]; reflexivity.
Qed.

(** *** Sequences of lifecycle calls *)

Lemma perform_member_keeps_to_lifecycle (o : lifecycle_op) (m : machine W) :
  keeps_to_lifecycle (perform_member o) m.
Proof.
  unfold keeps_to_lifecycle.
  destruct o; unfold perform_member; run.
  - destruct (handle_valid _); simpl; [destruct (api_is_running _ _) as [b w]; simpl|].
    + eexists. split; [reflexivity|]. repeat split. congruence.
    + exists []. rewrite app_nil_r. repeat split. congruence.
  - eexists. split; [reflexivity|]. repeat split. congruence.
  - destruct (_exited (self m)) eqn:E; simpl.
    + exists []. rewrite app_nil_r. repeat split. discriminate.
    + destruct (api_wait _ _) as [code w]. simpl.
      eexists. split; [reflexivity|]. repeat split; discriminate.
  - destruct (_exited (self m)) eqn:E; simpl.
    + exists []. rewrite app_nil_r. repeat split. discriminate.
    + destruct (api_wait_for _ _ _) as [[code|] w]; simpl;
        (eexists; split; [reflexivity|]; repeat split; discriminate).
  - destruct (_exited (self m)) eqn:E; simpl.
    + exists []. rewrite app_nil_r. repeat split. discriminate.
    + destruct (api_wait_until _ _ _) as [[code|] w]; simpl;
        (eexists; split; [reflexivity|]; repeat split; discriminate).
Qed.

Lemma perform_all_step (o : lifecycle_op) (ops : list lifecycle_op) (m : machine W) :
  exec (perform_all (map member (o :: ops))) m
  = exec (perform_all (map member ops)) (exec (perform_member o) m).
Proof.
  simpl. unfold exec, bind. destruct (perform_member o m) as [u m1]. reflexivity.
Qed.

Lemma perform_all_keeps_to_lifecycle (ops : list lifecycle_op) (m : machine W) :
  keeps_to_lifecycle (perform_all (map member ops)) m.
Proof.
  revert m. induction ops as [|o ops IH]; intros m.
  - exists []. unfold exec, ret. simpl. rewrite app_nil_r. repeat split. congruence.
  - destruct (perform_member_keeps_to_lifecycle o m)
      as [x1 [C1 [A1 [[H1 [R1 T1]] [Stay1 Set1]]]]].
    destruct (IH (exec (perform_member o) m))
      as [x2 [C2 [A2 [[H2 [R2 T2]] [Stay2 Set2]]]]].
    exists (x1 ++ x2). rewrite perform_all_step.
    split; [rewrite C2, C1, app_assoc; reflexivity|].
    split; [rewrite forallb_app, A1, A2; reflexivity|].
    split; [repeat split; congruence|].
    split.
    + intros E. destruct (Stay1 E) as [N1 [S1 Q1]].
      assert (E1 : _exited (self (exec (perform_member o) m)) = true)
        by (rewrite S1; exact E).
      destruct (Stay2 E1) as [N2 [S2 Q2]].
      rewrite existsb_app, N1, N2. repeat split; congruence.
    + intros E F. rewrite existsb_app.
      destruct (_exited (self (exec (perform_member o) m))) eqn:E1.
      * rewrite (Set1 E eq_refl). reflexivity.
      * rewrite (Set2 eq_refl F). apply orb_true_r.
Qed.

Lemma calls_of_extra {A : Type} (c : M W A) (m : machine W) (extra : list os_call) :
  calls (exec c m) = calls m ++ extra -> calls_of c m = extra.
Proof. intros E. unfold calls_of. rewrite E. apply skipn_length_app. Qed.

(** X4: no sequence of [running()], [terminate()], [wait()], [wait_for()]
    and [wait_until()] touches what the owner owns: the handle, the bundle
    pointer and [_attached] are as before, so [valid()] answers the same,
    and no bundle is deleted and no handle closed along the way. *)
Theorem lifecycle_keeps_ownership (ops : list lifecycle_op) (m : machine W) :
  _child_handle (self (exec (perform_all (map member ops)) m)) = _child_handle (self m) /\
  _resource (self (exec (perform_all (map member ops)) m)) = _resource (self m) /\
  _attached (self (exec (perform_all (map member ops)) m)) = _attached (self m) /\
  result valid (exec (perform_all (map member ops)) m) = result valid m /\
  forallb is_api_call (calls_of (perform_all (map member ops)) m) = true.
Proof.
  destruct (perform_all_keeps_to_lifecycle ops m) as [x [C [A [[H1 [R1 T1]] _]]]].
  rewrite (calls_of_extra _ _ _ C).
  repeat split; try assumption.
  unfold result, valid, this, bind, ret. simpl. rewrite H1. reflexivity.
Qed.

(** X5: once the owner has exited, no sequence of lifecycle calls changes
    any of its members or stores anything: the exit code it holds is the
    one it keeps, and none of the calls waits. *)
Theorem exit_state_is_final (ops : list lifecycle_op) (m : machine W) :
  _exited (self m) = true ->
  self (exec (perform_all (map member ops)) m) = self m /\
  seen (exec (perform_all (map member ops)) m) = seen m /\
  existsb is_wait_call (calls_of (perform_all (map member ops)) m) = false.
Proof.
  intros E.
  destruct (perform_all_keeps_to_lifecycle ops m) as [x [C [_ [_ [Stay _]]]]].
  destruct (Stay E) as [N [S Q]].
  rewrite (calls_of_extra _ _ _ C). repeat split; assumption.
Qed.

(** X6: the exited flag is only ever set after a wait: if an owner that
    had not exited has exited after a sequence of lifecycle calls, one of
    the platform calls made was a waiting call; [running()] and
    [terminate()] alone never mark an owner as exited. *)
Theorem exited_only_by_waiting (ops : list lifecycle_op) (m : machine W) :
  _exited (self m) = false ->
  _exited (self (exec (perform_all (map member ops)) m)) = true ->
  existsb is_wait_call (calls_of (perform_all (map member ops)) m) = true.
Proof.
  intros E F.
  destruct (perform_all_keeps_to_lifecycle ops m) as [x [C [_ [_ [_ Waited]]]]].
  rewrite (calls_of_extra _ _ _ C). exact (Waited E F).
Qed.

(** *** The sentinel *)

Lemma perform_member_sentinel (o : lifecycle_op) (m : machine W) :
  (_exited (self m) = false -> _exit_code (self m) = -1) ->
  _exited (self (exec (perform_member o) m)) = false ->
  _exit_code (self (exec (perform_member o) m)) = -1.
Proof.
  destruct o; unfold perform_member; run.
  - destruct (handle_valid _); simpl; [destruct (api_is_running _ _)|]; simpl; auto.
  - simpl; auto.
  - destruct (_exited (self m)) eqn:E; simpl; [intros _ F; congruence|].
    destruct (api_wait _ _); simpl. discriminate.
  - destruct (_exited (self m)) eqn:E; simpl; [intros _ F; congruence|].
    destruct (api_wait_for _ _ _) as [[code|] w]; simpl; [discriminate | auto].
  - destruct (_exited (self m)) eqn:E; simpl; [intros _ F; congruence|].
    destruct (api_wait_until _ _ _) as [[code|] w]; simpl; [discriminate | auto].
Qed.

(** X7: for every owner a program can hold, as long as the exited flag is
    [false] the stored exit code is the sentinel [-1]: between calls,
    [exit_code()] differs from [-1] only on an owner that has exited. *)
Theorem sentinel_until_exited (c : child) :
  reachable c -> _exited c = false -> _exit_code c = -1.
Proof.
  induction 1 as [| | lhs _ IH | lhs _ IH | o m _ IH | lhs m _ _ _ IH].
  - reflexivity.
  - reflexivity.
  - exact IH.
  - exact IH.
  - apply perform_member_sentinel, IH.
  - rewrite operator_assign_self. exact IH.
Qed.

(** *** The destructor and move assignment *)

(** X8: the destructor, on any owner.  It waits exactly when the owner is
    attached and has not exited, before anything is released; then the
    bundle is deleted if there is one, once, and after it the handle is
    closed if it is not empty.  Without the wait the operating system is
    left as it was. *)
Theorem destructor_calls (m : machine W) :
  calls_of destructor m
    = (if negb (_exited (self m)) && _attached (self m)
       then [wait_call (_child_handle (self m))] else [])
      ++ match _resource (self m) with
         | Some p => [delete_resource p]
         | None => []
         end
      ++ match _child_handle (self m) with
         | Some p => [close_handle p]
         | None => []
         end /\
  os (exec destructor m)
    = (if negb (_exited (self m)) && _attached (self m)
       then snd (api_wait (_child_handle (self m)) (os m)) else os m).
Proof.
  destruct m as [[h r e x t] w cs sn]. run.
  destruct e, t; simpl; try destruct (api_wait h w) as [code w']; simpl;
    destruct r as [p|], h as [q|]; simpl;
    rewrite <- ?app_assoc, ?skipn_length_app, ?skipn_length_self; split; reflexivity.
Qed.

(** X9: move assignment from another object makes no call to the
    platform: the process the owner stood for is neither waited for nor
    terminated, whatever its exited and attached flags were, and the
    operating system is left as it was.  The bundle the owner had is
    deleted, once, if there was one; the bundle it has afterwards is not
    deleted. *)
Theorem operator_assign_drops_without_waiting (lhs : child) (m : machine W) :
  another_object lhs (self m) = true ->
  existsb is_api_call (calls_of (operator_assign lhs) m) = false /\
  deletions (calls_of (operator_assign lhs) m)
    = match _resource (self m) with
      | Some p => [p]
      | None => []
      end /\
  existsb (owns (self (exec (operator_assign lhs) m)))
          (deletions (calls_of (operator_assign lhs) m)) = false /\
  os (exec (operator_assign lhs) m) = os m.
Proof.
  intros Apart. rewrite operator_assign_self.
  destruct m as [[h r e x t] w cs sn].
  unfold another_object in Apart. simpl in Apart.
  unfold operator_assign, reset_resource, assign, owns. run.
  destruct r as [q|]; simpl;
    rewrite ?skipn_length_app, ?skipn_length_self; simpl; repeat split.
  destruct (_resource lhs) as [p|]; [|reflexivity].
  apply andb_true_iff in Apart. destruct Apart as [Apart _].
  rewrite Z.eqb_sym, orb_false_r. apply negb_true_iff. exact Apart.
Qed.

(** *** What the bounded waits show, and what follows terminate *)

(** X10: a bounded wait that succeeds first lets the platform write the
    exit code into [_exit_code] while the exited flag is still [false],
    then sets the flag, then overwrites the exit code with [0]: these are
    the values that can be read, in order. *)
Theorem bounded_wait_success_trace (b : bound) (m : machine W) (code : Z) :
  _exited (self m) = false ->
  fst (platform_answer b (_child_handle (self m)) (os m)) = Some code ->
  observable (bounded_wait b) m
    = [observe (self m); (false, code); (true, code); (true, 0)].
Proof.
  intros E T. destruct b; run; rewrite E; simpl.
  - destruct (api_wait_for _ _ _) as [[code'|] w]; [|discriminate].
    simpl in *. injection T as ->.
    rewrite <- !app_assoc, skipn_length_app.
    unfold observe. simpl. rewrite E. reflexivity.
  - destruct (api_wait_until _ _ _) as [[code'|] w]; [|discriminate].
    simpl in *. injection T as ->.
    rewrite <- !app_assoc, skipn_length_app.
    unfold observe. simpl. rewrite E. reflexivity.
Qed.

(** X11: [terminate()] does not touch the exit state; on an owner that
    has not exited, the [wait()] after it asks the platform in the state
    [terminate()] left, and [exit_code()] is then what the platform
    reported there. *)
Theorem terminate_then_wait (m : machine W) :
  _exited (self m) = false ->
  observe (self (exec terminate m)) = observe (self m) /\
  result (terminate ;; wait ;; exit_code) m
    = fst (api_wait (_child_handle (self m))
                    (api_terminate (_child_handle (self m)) (os m))) /\
  calls_of (terminate ;; wait) m
    = [terminate_call (_child_handle (self m)); wait_call (_child_handle (self m))].
Proof.
  intros E. run. rewrite E. simpl.
  destruct (api_wait _ _) as [code w]. simpl.
  rewrite <- app_assoc, skipn_length_app. repeat split.
Qed.

End MoreMemberFacts.

(** *** On the clockwork platform *)

Lemma exit_state_is_final_witness :
  _exited (self (exec wait (start owner (ends_with 42)))) = true /\
  self (exec (perform_all (map member [op_running; op_terminate; op_wait_for 5; op_wait]))
             (exec wait (start owner (ends_with 42))))
    = self (exec wait (start owner (ends_with 42))) /\
  seen (exec (perform_all (map member [op_running; op_terminate; op_wait_for 5; op_wait]))
             (exec wait (start owner (ends_with 42))))
    = seen (exec wait (start owner (ends_with 42))) /\
  existsb is_wait_call
    (calls_of (perform_all (map member [op_running; op_terminate; op_wait_for 5; op_wait]))
              (exec wait (start owner (ends_with 42)))) = false.
Proof.
  split; [reflexivity|].
  exact (exit_state_is_final [op_running; op_terminate; op_wait_for 5; op_wait]
           (exec wait (start owner (ends_with 42))) eq_refl).
Defined.

Lemma exited_only_by_waiting_witness :
  _exited (self (start owner (ends_with 42))) = false /\
  _exited (self (exec (perform_all (map member [op_running; op_wait_for 10; op_wait]))
                      (start owner (ends_with 42)))) = true /\
  existsb is_wait_call
    (calls_of (perform_all (map member [op_running; op_wait_for 10; op_wait]))
              (start owner (ends_with 42))) = true.
Proof.
  split; [reflexivity|]. split; [reflexivity|].
  exact (exited_only_by_waiting [op_running; op_wait_for 10; op_wait]
           (start owner (ends_with 42)) eq_refl eq_refl).
Defined.

Lemma sentinel_until_exited_witness :
  reachable (W := world)
    (self (exec (perform_member (op_wait_for 10)) (start owner (ends_with 42)))) /\
  _exited (self (exec (perform_member (op_wait_for 10)) (start owner (ends_with 42))))
    = false /\
  _exit_code (self (exec (perform_member (op_wait_for 10)) (start owner (ends_with 42))))
    = -1.
Proof.
  split; [apply reach_member, reach_ctor|]. split; [reflexivity|].
  exact (sentinel_until_exited
           (self (exec (perform_member (op_wait_for 10)) (start owner (ends_with 42))))
           (reach_member (op_wait_for 10) (start owner (ends_with 42))
              (reach_ctor (Some 5) None))
           eq_refl).
Defined.

Lemma bounded_wait_success_trace_witness :
  _exited (self (start owner (ends_with 7))) = false /\
  fst (platform_answer (before 60) (_child_handle (self (start owner (ends_with 7))))
                       (os (start owner (ends_with 7)))) = Some 7 /\
  observable (bounded_wait (before 60)) (start owner (ends_with 7))
    = [observe (self (start owner (ends_with 7))); (false, 7); (true, 7); (true, 0)].
Proof.
  split; [reflexivity|]. split; [reflexivity|].
  exact (bounded_wait_success_trace (before 60) (start owner (ends_with 7)) 7
           eq_refl eq_refl).
Defined.

Lemma terminate_then_wait_witness :
  _exited (self (start owner (ends_with 42))) = false /\
  observe (self (exec terminate (start owner (ends_with 42))))
    = observe (self (start owner (ends_with 42))) /\
  result (terminate ;; wait ;; exit_code) (start owner (ends_with 42)) = 9 /\
  calls_of (terminate ;; wait) (start owner (ends_with 42))
    = [terminate_call (Some 5); wait_call (Some 5)].
Proof.
  split; [reflexivity|].
  exact (terminate_then_wait (start owner (ends_with 42)) eq_refl).
Defined.

Lemma operator_assign_drops_without_waiting_witness :
  another_object owner_with_pipe (self (start attached_owner_of_6 (ends_with 7))) = true /\
  existsb is_api_call
    (calls_of (operator_assign owner_with_pipe) (start attached_owner_of_6 (ends_with 7)))
    = false /\
  deletions
    (calls_of (operator_assign owner_with_pipe) (start attached_owner_of_6 (ends_with 7)))
    = [200] /\
  existsb (owns (self (exec (operator_assign owner_with_pipe)
                            (start attached_owner_of_6 (ends_with 7)))))
          (deletions (calls_of (operator_assign owner_with_pipe)
                               (start attached_owner_of_6 (ends_with 7)))) = false /\
  os (exec (operator_assign owner_with_pipe) (start attached_owner_of_6 (ends_with 7)))
    = ends_with 7.
Proof.
  split; [reflexivity|].
  exact (operator_assign_drops_without_waiting owner_with_pipe
           (start attached_owner_of_6 (ends_with 7)) eq_refl).
Defined.
